(** * Flight Delay Analytics dashboard: a shallow embedding of [flight_delay.py]

    The script is one top-to-bottom pass that the dashboard framework re-runs
    on every widget change: load the uploaded CSV, coerce and fill columns,
    derive four columns, compute the IQR threshold and the anomalous rows,
    read the side-bar filters, filter, aggregate, and offer the filtered
    table for download.

    Modelling choices.
    - A data frame is the list of its rows, in source order.
    - A float cell is [option Q]: [None] is NaN (an absent value), [Some q]
      a finite number.  Arithmetic is exact; cells that the library reads
      as an infinity, rounding and integer overflow are outside the model.
    - A text cell is [option string], [None] being the NaN that the CSV
      reader puts in place of an empty or NA-spelled cell.
    - The text-to-number conversion and the number-to-text rendering belong
      to the data-table library; they are parameters of the development. *)

From Stdlib Require Import List String Ascii Bool Arith ZArith QArith Qround Lia.
From Stdlib Require Import Permutation Sorted DecimalString DecimalZ.
From Stdlib Require OrderedTypeEx.
From Stdlib Require Import Lqa.
Import ListNotations.

Set Implicit Arguments.

(** ** Columns *)

(** The three categorical columns used by the filters and the aggregates. *)
Inductive text_col : Type := Airline | Origin | Dest.

(** The entries of [numeric_cols], lines 37-41. *)
Inductive numeric_col : Type :=
| DepTime | ArrTime | CRSArrTime | ActualElapsedTime | CRSElapsedTime
| AirTime | ArrDelay | Distance | TaxiIn | TaxiOut
| CarrierDelay | WeatherDelay | NASDelay | SecurityDelay | LateAircraftDelay.

Definition numeric_cols : list numeric_col :=
  [ DepTime; ArrTime; CRSArrTime; ActualElapsedTime; CRSElapsedTime;
    AirTime; ArrDelay; Distance; TaxiIn; TaxiOut;
    CarrierDelay; WeatherDelay; NASDelay; SecurityDelay; LateAircraftDelay ].

Definition numeric_col_eqb (a b : numeric_col) : bool :=
  match a, b with
  | DepTime, DepTime | ArrTime, ArrTime | CRSArrTime, CRSArrTime
  | ActualElapsedTime, ActualElapsedTime | CRSElapsedTime, CRSElapsedTime
  | AirTime, AirTime | ArrDelay, ArrDelay | Distance, Distance
  | TaxiIn, TaxiIn | TaxiOut, TaxiOut
  | CarrierDelay, CarrierDelay | WeatherDelay, WeatherDelay
  | NASDelay, NASDelay | SecurityDelay, SecurityDelay
  | LateAircraftDelay, LateAircraftDelay => true
  | _, _ => false
  end.

(** ** Dates *)

(** A timestamp at midnight: the only ones a [%d-%m-%Y] parse produces. *)
Record Timestamp : Type := mkTimestamp { year : nat; month : nat; day : nat }.

Definition ts_leb (a b : Timestamp) : bool :=
  (year a <? year b)
  || ((year a =? year b)
      && ((month a <? month b)
          || ((month a =? month b) && (day a <=? day b)))).

(** [Series >= ts] and [Series <= ts], element-wise: a comparison with NaT
    is False. *)
Definition ge_ts (d : option Timestamp) (t : Timestamp) : bool :=
  match d with Some x => ts_leb t x | None => false end.

Definition le_ts (d : option Timestamp) (t : Timestamp) : bool :=
  match d with Some x => ts_leb x t | None => false end.

(** ** Rows and frames *)

Record Row : Type := mkRow {
  Date : option Timestamp;
  text : text_col -> option string;
  num  : numeric_col -> option Q
}.

Definition DataFrame : Type := list Row.

(** The side-bar state, lines 91-94.  [date_range] is the tuple returned by
    the date widget: it has two entries once a range is chosen, fewer while
    the user is still choosing. *)
Record FilterSpec : Type := mkFilterSpec {
  date_range        : list Timestamp;
  selected_carriers : list string;
  selected_origin   : list string;
  selected_dest     : list string
}.

(** ** Filter Engine, lines 97-106 *)

(** [Series.isin(values)]: a NaN cell is in no list of strings. *)
Definition isin (v : option string) (values : list string) : bool :=
  match v with
  | Some s => existsb (String.eqb s) values
  | None => false
  end.

Definition in_date_range (d0 d1 : Timestamp) (r : Row) : bool :=
  ge_ts (Date r) d0 && le_ts (Date r) d1.

Definition filtered (df : DataFrame) (fs : FilterSpec) : DataFrame :=
  let filtered := df in
  let filtered :=
    match date_range fs with
    | [d0; d1] => filter (in_date_range d0 d1) filtered
    | _ => filtered
    end in
  let filtered :=
    match selected_carriers fs with
    | [] => filtered
    | _ :: _ => filter (fun r => isin (text r Airline) (selected_carriers fs)) filtered
    end in
  let filtered :=
    match selected_origin fs with
    | [] => filtered
    | _ :: _ => filter (fun r => isin (text r Origin) (selected_origin fs)) filtered
    end in
  let filtered :=
    match selected_dest fs with
    | [] => filtered
    | _ :: _ => filter (fun r => isin (text r Dest) (selected_dest fs)) filtered
    end in
  filtered.

(** The four steps as one row predicate. *)
Definition passes (fs : FilterSpec) (r : Row) : bool :=
  match date_range fs with
  | [d0; d1] => in_date_range d0 d1 r
  | _ => true
  end
  && match selected_carriers fs with
     | [] => true
     | _ :: _ => isin (text r Airline) (selected_carriers fs)
     end
  && match selected_origin fs with
     | [] => true
     | _ :: _ => isin (text r Origin) (selected_origin fs)
     end
  && match selected_dest fs with
     | [] => true
     | _ :: _ => isin (text r Dest) (selected_dest fs)
     end.

(** ** Series helpers *)

(** [df[c]] for a numeric column. *)
Definition col (c : numeric_col) (df : DataFrame) : list (option Q) :=
  map (fun r => num r c) df.

Definition dropna (s : list (option Q)) : list Q :=
  flat_map (fun v => match v with Some q => [q] | None => [] end) s.

Definition Qsum (l : list Q) : Q := fold_right Qplus 0 l.

(** [Series.mean()]: NaN cells are skipped; with no value left the result
    is NaN (the library guards the division with [count > 0]). *)
Definition mean (s : list (option Q)) : option Q :=
  match dropna s with
  | [] => None
  | (_ :: _) as vals => Some (Qsum vals / inject_Z (Z.of_nat (List.length vals)))
  end.

(** Comparisons of float cells: any comparison with NaN is False. *)
Definition float_gt (a b : option Q) : bool :=
  match a, b with
  | Some x, Some y => negb (Qle_bool x y)
  | _, _ => false
  end.

Definition float_le (a b : option Q) : bool :=
  match a, b with
  | Some x, Some y => Qle_bool x y
  | _, _ => false
  end.


(** ** Anomaly Detector, lines 64-67 *)

Fixpoint insert_sorted (x : Q) (l : list Q) : list Q :=
  match l with
  | [] => [x]
  | y :: l' => if Qle_bool x y then x :: l else y :: insert_sorted x l'
  end.

Definition sort_floats (l : list Q) : list Q := fold_right insert_sorted [] l.

(** [Series.quantile(q)] with the default [interpolation='linear']: on the
    sorted non-NaN values the virtual index is [(n-1)*q]; the result lies
    between the two closest ranks, at the fractional part of that index.
    NaN for an empty series. *)
Definition quantile (s : list (option Q)) (q : Q) : option Q :=
  match sort_floats (dropna s) with
  | [] => None
  | (v0 :: _) as vals =>
      let n := List.length vals in
      let pos := inject_Z (Z.of_nat (n - 1)) * q in
      let lo := Z.to_nat (Qfloor pos) in
      let hi := Nat.min (lo + 1) (n - 1) in
      let gamma := pos - inject_Z (Qfloor pos) in
      Some (nth lo vals v0 + (nth hi vals v0 - nth lo vals v0) * gamma)
  end.

(** Arithmetic on possibly-NaN scalars. *)
Definition float_sub (a b : option Q) : option Q :=
  match a, b with Some x, Some y => Some (x - y) | _, _ => None end.

Definition float_add (a b : option Q) : option Q :=
  match a, b with Some x, Some y => Some (x + y) | _, _ => None end.

Definition float_scale (k : Q) (a : option Q) : option Q :=
  option_map (Qmult k) a.

Definition q1 (df : DataFrame) : option Q := quantile (col ArrDelay df) (1 # 4).
Definition q3 (df : DataFrame) : option Q := quantile (col ArrDelay df) (3 # 4).
Definition iqr (df : DataFrame) : option Q := float_sub (q3 df) (q1 df).

Definition upper_limit (df : DataFrame) : option Q :=
  float_add (q3 df) (float_scale (3 # 2) (iqr df)).

Definition anomalies (df : DataFrame) : DataFrame :=
  filter (fun r => float_gt (num r ArrDelay) (upper_limit df)) df.

(** ** Enricher, line 59 *)

(** [np.where(df['ArrDelay'] <= 15, 1, 0)]. *)
Definition OnTime (r : Row) : Z :=
  if float_le (num r ArrDelay) (Some 15) then 1%Z else 0%Z.

(** ** KPIs, lines 113-116 *)

Definition avg_delay (fl : DataFrame) : option Q := mean (col ArrDelay fl).

Definition pct_ontime (fl : DataFrame) : option Q :=
  float_scale 100 (mean (map (fun r => Some (inject_Z (OnTime r))) fl)).

Definition avg_distance (fl : DataFrame) : option Q := mean (col Distance fl).

Definition total_flights (fl : DataFrame) : nat := List.length fl.

(** ** Per-airline aggregate, lines 130-132 *)

(** Insertion into an ascending list of distinct keys. *)
Fixpoint insert_key (k : string) (ks : list string) : list string :=
  match ks with
  | [] => [k]
  | k' :: ks' =>
      match String.compare k k' with
      | Lt => k :: ks
      | Eq => ks
      | Gt => k' :: insert_key k ks'
      end
  end.

(** The group keys of [groupby(c)]: the distinct non-NaN values of the
    column, ascending ([sort=True], [dropna=True] are the defaults). *)
Definition group_keys (c : text_col) (df : DataFrame) : list string :=
  fold_right
    (fun r ks => match text r c with Some k => insert_key k ks | None => ks end)
    [] df.

Definition has_key (c : text_col) (k : string) (r : Row) : bool :=
  match text r c with Some s => String.eqb s k | None => false end.

(** [df.groupby(c)[v].mean().reset_index()]: one row per key, in key
    order, with the mean of [v] over the rows of that key. *)
Definition groupby_mean (c : text_col) (v : numeric_col) (df : DataFrame)
  : list (string * option Q) :=
  map (fun k => (k, mean (col v (filter (has_key c k) df)))) (group_keys c df).

Definition non_nan_rows (t : list (string * option Q)) : list (string * Q) :=
  flat_map (fun r => match snd r with Some m => [(fst r, m)] | None => [] end) t.

Definition nan_rows (t : list (string * option Q)) : list (string * option Q) :=
  filter (fun r => match snd r with Some _ => false | None => true end) t.

(** [sort_values(by='ArrDelay', ascending=False)] around the library's
    [argsort], which orders rows by ascending value: the non-NaN rows are
    reversed, sorted ascending, and reversed again; NaN rows go last
    ([na_position='last']).  The call leaves [kind] at its default,
    ['quicksort'], which the library documents as not stable, so [argsort]
    is a parameter here and only its contract is assumed where needed. *)
Definition sort_values_desc (argsort : list (string * Q) -> list (string * Q))
  (t : list (string * option Q)) : list (string * option Q) :=
  map (fun r => (fst r, Some (snd r))) (rev (argsort (rev (non_nan_rows t))))
  ++ nan_rows t.

Definition avg_delay_airline (argsort : list (string * Q) -> list (string * Q))
  (fl : DataFrame) : list (string * option Q) :=
  sort_values_desc argsort (groupby_mean Airline ArrDelay fl).

(** What the library promises of [argsort]: the same rows, ascending. *)
Definition argsort_contract (argsort : list (string * Q) -> list (string * Q)) : Prop :=
  forall l, Permutation l (argsort l)
            /\ StronglySorted (fun a b => snd a <= snd b) (argsort l).

(** Row [a] may stand before row [b] in a descending table with NaN last. *)
Definition desc_before (a b : string * option Q) : Prop :=
  match snd a, snd b with
  | Some x, Some y => y <= x
  | _, None => True
  | None, Some _ => False
  end.

Definition descending (t : list (string * option Q)) : Prop :=
  StronglySorted desc_before t.

(** Ascending order of keys. *)
Definition key_lt (a b : string) : Prop := String.ltb a b = true.

(** A sort that meets the contract, by insertion.  [before x y] decides
    whether an incoming row [x] is put in front of [y]. *)
Fixpoint insert_row (before : string * Q -> string * Q -> bool)
  (x : string * Q) (l : list (string * Q)) : list (string * Q) :=
  match l with
  | [] => [x]
  | y :: l' => if before x y then x :: l else y :: insert_row before x l'
  end.

Definition insertion_argsort (before : string * Q -> string * Q -> bool)
  (l : list (string * Q)) : list (string * Q) :=
  fold_right (insert_row before) [] l.

(** Equal values keep their incoming order. *)
Definition stable_argsort : list (string * Q) -> list (string * Q) :=
  insertion_argsort (fun x y => Qle_bool (snd x) (snd y)).

(** ** CSV cells *)

(** One line of the uploaded file, cell texts as the CSV tokenizer hands
    them over (separators and quoting already undone).  Only the nineteen
    columns that the script reads are carried. *)
Record RawRow : Type := mkRawRow {
  raw_Date : string;
  raw_text : text_col -> string;
  raw_num  : numeric_col -> string
}.

(** The reader's default NA spellings. *)
Definition na_values : list string :=
  [ ""; "#N/A"; "#N/A N/A"; "#NA"; "-1.#IND"; "-1.#QNAN"; "-NaN"; "-nan";
    "1.#IND"; "1.#QNAN"; "<NA>"; "N/A"; "NA"; "NULL"; "NaN"; "None";
    "n/a"; "nan"; "null" ]%string.

Definition is_na (s : string) : bool := existsb (String.eqb s) na_values.

(** [pd.read_csv] on a text cell, line 32. *)
Definition read_cell (s : string) : option string :=
  if is_na s then None else Some s.

(** *** Parsing [%d-%m-%Y], line 36 *)

Local Open Scope nat_scope.

Definition is_digit (c : ascii) : bool :=
  (48 <=? nat_of_ascii c) && (nat_of_ascii c <=? 57).

Definition digit_val (c : ascii) : nat := nat_of_ascii c - 48.

Definition nonzero_digit (c : ascii) : option nat :=
  if is_digit c && (1 <=? digit_val c) then Some (digit_val c) else None.

Definition two_digits (c1 c2 : ascii) (hi : nat) : option nat :=
  if is_digit c1 && is_digit c2 then
    let v := 10 * digit_val c1 + digit_val c2 in
    if (1 <=? v) && (v <=? hi) then Some v else None
  else None.

(** The day field: [3[0-1]|[1-2]\d|0[1-9]|[1-9]| [1-9]]. *)
Definition parse_d (s : string) : option nat :=
  match s with
  | String c EmptyString => nonzero_digit c
  | String c1 (String c2 EmptyString) =>
      if Ascii.eqb c1 " " then nonzero_digit c2 else two_digits c1 c2 31
  | _ => None
  end.

(** The month field: [1[0-2]|0[1-9]|[1-9]]. *)
Definition parse_m (s : string) : option nat :=
  match s with
  | String c EmptyString => nonzero_digit c
  | String c1 (String c2 EmptyString) => two_digits c1 c2 12
  | _ => None
  end.

(** The year field: four digits. *)
Definition parse_Y (s : string) : option nat :=
  match s with
  | String c1 (String c2 (String c3 (String c4 EmptyString))) =>
      if is_digit c1 && is_digit c2 && is_digit c3 && is_digit c4 then
        Some (1000 * digit_val c1 + 100 * digit_val c2
              + 10 * digit_val c3 + digit_val c4)
      else None
  | _ => None
  end.

(** The fields between the dashes. *)
Fixpoint split_dash (s : string) : list string :=
  match s with
  | EmptyString => [EmptyString]
  | String c s' =>
      if Ascii.eqb c "-" then EmptyString :: split_dash s'
      else match split_dash s' with
           | [] => [String c EmptyString]
           | f :: fs => String c f :: fs
           end
  end.

Definition is_leap (y : nat) : bool :=
  (y mod 4 =? 0) && (negb (y mod 100 =? 0) || (y mod 400 =? 0)).

Definition days_in_month (y m : nat) : nat :=
  match m with
  | 2 => if is_leap y then 29 else 28
  | 4 | 6 | 9 | 11 => 30
  | _ => 31
  end.

(** The whole cell must match the format and name a calendar day. *)
Definition strptime (s : string) : option Timestamp :=
  match split_dash s with
  | [fd; fm; fy] =>
      match parse_d fd, parse_m fm, parse_Y fy with
      | Some d, Some m, Some y =>
          if (1 <=? y) && (d <=? days_in_month y m)
          then Some (mkTimestamp y m d) else None
      | _, _, _ => None
      end
  | _ => None
  end.

(** [pd.to_datetime(..., format='%d-%m-%Y', errors='coerce')] on one cell:
    NaN and anything that does not parse become NaT. *)
Definition to_datetime (c : option string) : option Timestamp :=
  match c with Some s => strptime s | None => None end.

(** *** Writing a timestamp, line 187 *)

Definition digit_char (n : nat) : ascii := ascii_of_nat (48 + n mod 10).

(** A column of midnights is written as [YYYY-MM-DD]. *)
Definition isoformat (t : Timestamp) : string :=
  String (digit_char (year t / 1000)) (String (digit_char (year t / 100))
  (String (digit_char (year t / 10)) (String (digit_char (year t))
  (String "-"
  (String (digit_char (month t / 10)) (String (digit_char (month t))
  (String "-"
  (String (digit_char (day t / 10)) (String (digit_char (day t))
   EmptyString))))))))).

(** ** Cleaner, lines 42-53 *)

(** The dictionary passed to [fillna]. *)
Definition fill_values : list (numeric_col * Q) :=
  [ (CarrierDelay, 0%Q); (WeatherDelay, 0%Q); (NASDelay, 0%Q);
    (SecurityDelay, 0%Q); (LateAircraftDelay, 0%Q); (ArrDelay, 0%Q) ].

(** The columns that the dictionary names. *)
Definition six_delay_cols : list numeric_col :=
  [ CarrierDelay; WeatherDelay; NASDelay; SecurityDelay; LateAircraftDelay;
    ArrDelay ].

Fixpoint lookup (c : numeric_col) (d : list (numeric_col * Q)) : option Q :=
  match d with
  | [] => None
  | (c', v) :: d' => if numeric_col_eqb c c' then Some v else lookup c d'
  end.

(** [df.fillna(d)] on the cell of column [c]: a NaN is replaced by the
    entry of [c], when [d] has one. *)
Definition fillna (d : list (numeric_col * Q)) (c : numeric_col) (v : option Q)
  : option Q :=
  match v with
  | Some _ => v
  | None => lookup c d
  end.

(** ** One run of the script *)

Local Open Scope string_scope.

(** Line 170: the five columns shown for an anomalous row. *)
Definition anomaly_line : Type :=
  (option Timestamp * option string * option string * option string * option Q)%type.

Definition shown_columns (r : Row) : anomaly_line :=
  (Date r, text r Airline, text r Origin, text r Dest, num r ArrDelay).

(** [DataFrame.head(n)]. *)
Definition head (n : nat) (A : Type) (l : list A) : list A := firstn n l.

Record Run : Type := mkRun {
  run_df                : DataFrame;
  run_upper_limit       : option Q;
  run_anomalies         : DataFrame;
  run_filtered          : DataFrame;
  run_avg_delay         : option Q;
  run_pct_ontime        : option Q;
  run_avg_distance      : option Q;
  run_total_flights     : nat;
  metric_avg_delay      : string;
  metric_pct_ontime     : string;
  metric_avg_distance   : string;
  run_avg_delay_airline : list (string * option Q);
  shown_anomaly_count   : nat;
  shown_anomaly_table   : list anomaly_line;
  download_csv          : list RawRow
}.

(** ** Further parts of the script *)

(** *** Side bar, line 90 *)

(** The parsed dates of the frame: [Series.min()] and [Series.max()] skip
    NaT. *)
Definition dates (df : DataFrame) : list Timestamp :=
  flat_map (fun r => match Date r with Some t => [t] | None => [] end) df.

Definition ts_min (a b : Timestamp) : Timestamp := if ts_leb a b then a else b.
Definition ts_max (a b : Timestamp) : Timestamp := if ts_leb a b then b else a.

(** [df['Date'].min()] and [df['Date'].max()]: NaT when no date parsed. *)
Definition min_date (df : DataFrame) : option Timestamp :=
  match dates df with
  | [] => None
  | t :: ts => Some (fold_left ts_min ts t)
  end.

Definition max_date (df : DataFrame) : option Timestamp :=
  match dates df with
  | [] => None
  | t :: ts => Some (fold_left ts_max ts t)
  end.

(** [l1] is [l2] with some elements left out, the others in place. *)
Inductive subseq (A : Type) : list A -> list A -> Prop :=
| subseq_nil : subseq [] []
| subseq_keep x l1 l2 : subseq l1 l2 -> subseq (x :: l1) (x :: l2)
| subseq_skip x l1 l2 : subseq l1 l2 -> subseq l1 (x :: l2).

Definition has_date (r : Row) : bool :=
  match Date r with Some _ => true | None => false end.

(** *** Enricher, line 61 *)

(** [df['Date'].dt.month]. *)
Definition Month (r : Row) : option nat := option_map month (Date r).

(** The number of a cell, 0 when it has none. *)
Definition or_zero (v : option Q) : Q :=
  match v with Some q => q | None => 0%Q end.

(** *** Calendar dates *)

Definition valid_date (t : Timestamp) : Prop :=
  1 <= year t < 100 * 100
  /\ 1 <= month t <= 12
  /\ 1 <= day t <= days_in_month (year t) (month t).

(** A date written day first with leading zeros, [DD-MM-YYYY]. *)
Definition dmy_format (t : Timestamp) : string :=
  String (digit_char (day t / 10)) (String (digit_char (day t))
  (String "-"
  (String (digit_char (month t / 10)) (String (digit_char (month t))
  (String "-"
  (String (digit_char (year t / 1000)) (String (digit_char (year t / 100))
  (String (digit_char (year t / 10)) (String (digit_char (year t))
   EmptyString))))))))).

(** *** Interpolation between closest ranks *)

(** The value at the virtual index [pos] of the ascending values [vals]. *)
Definition interpolate (vals : list Q) (v0 : Q) (pos : Q) : Q :=
  let lo := Z.to_nat (Qfloor pos) in
  let hi := Nat.min (lo + 1) (List.length vals - 1) in
  let gamma := (pos - inject_Z (Qfloor pos))%Q in
  (nth lo vals v0 + (nth hi vals v0 - nth lo vals v0) * gamma)%Q.


(** *** Monthly trend, line 144 *)

Fixpoint insert_month (m : nat) (ms : list nat) : list nat :=
  match ms with
  | [] => [m]
  | m' :: ms' =>
      match Nat.compare m m' with
      | Lt => m :: ms
      | Eq => ms
      | Gt => m' :: insert_month m ms'
      end
  end.

(** The group keys of [groupby('Month')]: the distinct months, ascending;
    rows without a month belong to no group. *)
Definition month_keys (df : DataFrame) : list nat :=
  fold_right
    (fun r ks => match Month r with Some m => insert_month m ks | None => ks end)
    [] df.

Definition in_month (m : nat) (r : Row) : bool :=
  match Month r with Some m' => Nat.eqb m' m | None => false end.

(** [filtered.groupby('Month')['ArrDelay'].mean().reset_index()]. *)
Definition trend (fl : DataFrame) : list (nat * option Q) :=
  map (fun m => (m, mean (col ArrDelay (filter (in_month m) fl)))) (month_keys fl).

(** *** Side bar options, lines 92-94 *)

Definition cell_eqb (a b : option string) : bool :=
  match a, b with
  | Some x, Some y => String.eqb x y
  | None, None => true
  | _, _ => false
  end.

(** [Series.unique()]: the distinct cells in order of first appearance; NaN
    counts as one value. *)
Fixpoint unique (s : list (option string)) : list (option string) :=
  match s with
  | [] => []
  | x :: s' => x :: filter (fun y => negb (cell_eqb y x)) (unique s')
  end.

Definition is_text (v : option string) : bool :=
  match v with Some _ => true | None => false end.

Definition strings (l : list (option string)) : list string :=
  flat_map (fun v => match v with Some s => [s] | None => [] end) l.

Fixpoint insert_string (x : string) (l : list string) : list string :=
  match l with
  | [] => [x]
  | y :: l' => if String.leb x y then x :: l else y :: insert_string x l'
  end.

Definition sort_strings (l : list string) : list string :=
  fold_right insert_string [] l.

(** Python's [sorted] on such cells: strings come out ascending; a list of
    two or more cells with a NaN among them raises [TypeError], because a
    string and a float cannot be compared ([None] here).  Nothing is
    compared in a list of fewer than two cells. *)
Definition sorted (l : list (option string)) : option (list (option string)) :=
  match l with
  | [] | [_] => Some l
  | _ :: _ :: _ =>
      if forallb is_text l then Some (map Some (sort_strings (strings l)))
      else None
  end.

(** [sorted(df[c].unique())], the options handed to a multiselect. *)
Definition multiselect_options (c : text_col) (df : DataFrame)
  : option (list (option string)) :=
  sorted (unique (map (fun r => text r c) df)).

(** ** A concrete library instance and sample tables

    Used to run the script on explicit inputs. *)

(** A cell is a number when it is a decimal integer. *)
Definition int_to_numeric (s : string) : option Q :=
  option_map (fun d => inject_Z (Z.of_int d)) (NilZero.int_of_string s).

(** A stand-in for the library's rendering of a number: its integer
    numerator.  It is not the text [to_csv] writes for a float column
    (which carries a decimal point); no statement depends on it. *)
Definition int_repr (c : numeric_col) (q : Q) : string :=
  NilZero.string_of_int (Z.to_int (Qnum q)).

(** Prints the integer part, whatever the number of digits asked for. *)
Definition int_format (digits : nat) (q : Q) : string :=
  NilZero.string_of_int (Z.to_int (Qfloor q)).

Definition sample_row (d a o t delay dist : string) : RawRow :=
  {| raw_Date := d;
     raw_text := fun c => match c with Airline => a | Origin => o | Dest => t end;
     raw_num  := fun c => match c with
                          | ArrDelay => delay
                          | Distance => dist
                          | _ => ""
                          end |}.

Definition sample_upload : list RawRow :=
  [ sample_row "03-01-2019" "AA" "JFK" "LAX" "5" "2475";
    sample_row "2019/01/04" "UA" "ORD" "SFO" "10" "1846";
    sample_row "05-01-2019" "AA" "JFK" "SFO" "12" "";
    sample_row "17-02-2019" "DL" "ATL" "JFK" "15" "760";
    sample_row "18-02-2019" "UA" "ORD" "LAX" "90" "1744" ].

Definition no_filter : FilterSpec :=
  {| date_range := []; selected_carriers := [];
     selected_origin := []; selected_dest := [] |}.

Definition january : FilterSpec :=
  {| date_range := [mkTimestamp 2019 1 1; mkTimestamp 2019 1 31];
     selected_carriers := []; selected_origin := []; selected_dest := [] |}.

Definition only_AA : FilterSpec :=
  {| date_range := []; selected_carriers := ["AA"];
     selected_origin := []; selected_dest := [] |}.

(** A combination that no row meets. *)
Definition DL_from_ORD : FilterSpec :=
  {| date_range := []; selected_carriers := ["DL"];
     selected_origin := ["ORD"]; selected_dest := [] |}.

(** The range the date widget starts from on the sample. *)
Definition whole_range : FilterSpec :=
  {| date_range := [mkTimestamp 2019 1 3; mkTimestamp 2019 2 18];
     selected_carriers := []; selected_origin := []; selected_dest := [] |}.

(** A frame given directly by its arrival delays. *)
Definition delay_row (a : string) (delay : Q) : Row :=
  {| Date := None;
     text := fun c => match c with Airline => Some a | _ => None end;
     num  := fun c => match c with ArrDelay => Some delay | _ => None end |}.



Definition four_delays : DataFrame :=
  [ delay_row "AA" 4%Q; delay_row "AA" 1%Q; delay_row "AA" 3%Q;
    delay_row "AA" 2%Q ].


Section Script.

(** The data-table library's conversions between cell text and numbers. *)

(** The number that [read_csv] followed by [pd.to_numeric(errors='coerce')]
    gives for a cell; [None] when the cell is empty or is not a number. *)
Variable to_numeric : string -> option Q.

(** The text that [to_csv] writes for a number in a given column. *)
Variable num_repr : numeric_col -> Q -> string.

(** Fixed-point formatting of a finite float, [f"{x:.nf}"]. *)
Variable format_fixed : nat -> Q -> string.

(** The sort behind [sort_values]. *)
Variable argsort : list (string * Q) -> list (string * Q).

(** Lines 32-53 on one row. *)
Definition clean_row (raw : RawRow) : Row :=
  {| Date := to_datetime (read_cell (raw_Date raw));
     text := fun c => read_cell (raw_text raw c);
     num  := fun c => fillna fill_values c (to_numeric (raw_num raw c)) |}.

Definition load_and_clean (uploaded : list RawRow) : DataFrame :=
  map clean_row uploaded.

(** [f"{x:.nf}"]: a NaN prints as [nan]. *)
Definition format_float (digits : nat) (x : option Q) : string :=
  match x with
  | Some q => format_fixed digits q
  | None => "nan"
  end.

(** [DataFrame.to_csv(index=False)] on one row: NaN and NaT are written as
    empty cells.  The four derived columns are written as well; neither
    the Loader nor the Cleaner reads them and lines 56-61 assign them anew,
    so they are left out of the exported row. *)
Definition to_csv_row (r : Row) : RawRow :=
  {| raw_Date := match Date r with Some t => isoformat t | None => "" end;
     raw_text := fun c => match text r c with Some s => s | None => "" end;
     raw_num  := fun c => match num r c with Some q => num_repr c q | None => "" end |}.

Definition to_csv (fl : DataFrame) : list RawRow := map to_csv_row fl.

Definition run_script (uploaded : list RawRow) (fs : FilterSpec) : Run :=
  let df := load_and_clean uploaded in
  let upper := upper_limit df in
  let anoms := anomalies df in
  let fl := filtered df fs in
  {| run_df := df;
     run_upper_limit := upper;
     run_anomalies := anoms;
     run_filtered := fl;
     run_avg_delay := avg_delay fl;
     run_pct_ontime := pct_ontime fl;
     run_avg_distance := avg_distance fl;
     run_total_flights := total_flights fl;
     metric_avg_delay := format_float 2 (avg_delay fl);
     metric_pct_ontime := format_float 2 (pct_ontime fl) ++ "%";
     metric_avg_distance := format_float 0 (avg_distance fl);
     run_avg_delay_airline := avg_delay_airline argsort fl;
     shown_anomaly_count := List.length anoms;
     shown_anomaly_table := head 10 (map shown_columns anoms);
     download_csv := to_csv fl |}.

(** Line 31: nothing is computed until a file is uploaded. *)
Definition dashboard (uploaded_file : option (list RawRow)) (fs : FilterSpec)
  : option Run :=
  match uploaded_file with
  | Some uploaded => Some (run_script uploaded fs)
  | None => None
  end.



(** * Properties *)

(** ** Filter Engine *)

Lemma filter_true (A : Type) (l : list A) : filter (fun _ => true) l = l.
Proof. induction l as [|x l IH]; simpl; congruence. Qed.

Lemma filter_filter (A : Type) (p q : A -> bool) (l : list A) :
  filter q (filter p l) = filter (fun x => p x && q x) l.
Proof.
  induction l as [|x l IH]; simpl; [reflexivity|].
  destruct (p x); simpl; [destruct (q x)|]; congruence.
Qed.

Lemma filter_idem (A : Type) (p : A -> bool) (l : list A) :
  filter p (filter p l) = filter p l.
Proof.
  rewrite filter_filter. apply filter_ext.
  intros x. now destruct (p x).
Qed.

(** The four conditional selections amount to one selection by [passes]. *)
Lemma filtered_as_filter df fs : filtered df fs = filter (passes fs) df.
Proof.
  unfold filtered, passes.
  destruct (date_range fs) as [|d0 [|d1 [|d2 dr]]];
    destruct (selected_carriers fs) as [|c cs];
    destruct (selected_origin fs) as [|o os];
    destruct (selected_dest fs) as [|d ds];
    rewrite ?filter_filter;
    try (symmetry; apply filter_true);
    apply filter_ext; intros r; simpl;
    rewrite ?andb_true_r, ?andb_assoc; reflexivity.
Qed.

Lemma passes_date_active fs r d0 d1 :
  date_range fs = [d0; d1] -> passes fs r = true -> in_date_range d0 d1 r = true.
Proof.
  unfold passes. intros ->.
  rewrite !andb_true_iff. tauto.
Qed.

Lemma length_two (A : Type) (l : list A) :
  List.length l = 2 -> exists a b, l = [a; b].
Proof.
  destruct l as [|a [|b [|c l]]]; simpl; try discriminate.
  intros _. now exists a, b.
Qed.

(** C5. When the date range is active (the widget returned two dates), no
    row whose date is absent is in the filtered frame, whatever the other
    selections are. *)
Theorem filtered_excludes_absent_date df fs :
  List.length (date_range fs) = 2 ->
  forall r, Date r = None -> ~ In r (filtered df fs).
Proof.
  intros Hlen r Hnat Hin.
  destruct (length_two _ Hlen) as (d0 & d1 & Hdr).
  rewrite filtered_as_filter in Hin.
  apply filter_In in Hin. destruct Hin as [_ Hp].
  apply (passes_date_active _ _ Hdr) in Hp.
  unfold in_date_range, ge_ts in Hp. rewrite Hnat in Hp.
  discriminate.
Qed.

(** C6. With no date range active and the three selections empty, the
    filtered frame is the frame itself: same rows, same order. *)
Theorem filtered_no_predicate df fs :
  List.length (date_range fs) <> 2 ->
  selected_carriers fs = [] ->
  selected_origin fs = [] ->
  selected_dest fs = [] ->
  filtered df fs = df.
Proof.
  intros Hlen Hc Ho Hd. unfold filtered.
  rewrite Hc, Ho, Hd.
  destruct (date_range fs) as [|d0 [|d1 [|d2 dr]]]; try reflexivity.
  now elim Hlen.
Qed.

(** C7. Filtering an already filtered frame with the same selections
    changes nothing. *)
Theorem filtered_idempotent df fs :
  filtered (filtered df fs) fs = filtered df fs.
Proof.
  rewrite !filtered_as_filter. apply filter_idem.
Qed.

(** ** Anomaly Detector *)




(** When the virtual index [(n-1)*q] is a whole number [k], the quantile is
    the value of rank [k] itself; otherwise it is taken on the segment
    between the two closest ranks. *)
Lemma quantile_closest_ranks s q v0 vals :
  sort_floats (dropna s) = v0 :: vals ->
  let n := List.length (v0 :: vals) in
  let pos := (inject_Z (Z.of_nat (n - 1)) * q)%Q in
  let lo := Z.to_nat (Qfloor pos) in
  let hi := Nat.min (lo + 1) (n - 1) in
  let gamma := (pos - inject_Z (Qfloor pos))%Q in
  quantile s q
  = Some (nth lo (v0 :: vals) v0
          + (nth hi (v0 :: vals) v0 - nth lo (v0 :: vals) v0) * gamma)%Q
  /\ (0 <= gamma)%Q /\ (gamma < 1)%Q.
Proof.
  intros Hs n pos lo hi gamma. split.
  - unfold quantile. rewrite Hs. reflexivity.
  - unfold gamma. split.
    + assert (H := Qfloor_le pos).
      apply Qle_minus_iff in H. exact H.
    + assert (H := Qlt_floor pos).
      rewrite inject_Z_plus in H.
      apply Qlt_minus_iff. apply Qlt_minus_iff in H.
      setoid_replace (1 + - (pos - inject_Z (Qfloor pos)))%Q
        with (inject_Z (Qfloor pos) + inject_Z 1 + - pos)%Q by ring.
      exact H.
Qed.

(** ** The threshold and the anomaly display against the filters *)

(** C1. The limit of a run is Q3 + 1.5 * IQR over the arrival delays of the
    whole cleaned frame; no selection enters it, so every choice of filters
    gives the same limit. *)
Theorem upper_limit_ignores_filters uploaded fs :
  let df := load_and_clean uploaded in
  run_upper_limit (run_script uploaded fs) = upper_limit df
  /\ upper_limit df
     = float_add (q3 df) (float_scale (3 # 2) (float_sub (q3 df) (q1 df)))
  /\ forall fs',
       run_upper_limit (run_script uploaded fs')
       = run_upper_limit (run_script uploaded fs).
Proof.
  intros df. repeat split.
Qed.

(** C10. The anomaly count and the anomaly table that are shown are taken
    from the rows of the whole cleaned frame whose arrival delay exceeds
    the limit: the count is their number, the table their first ten lines;
    both are the same for every choice of filters. *)
Theorem anomaly_display_ignores_filters uploaded fs :
  let df := load_and_clean uploaded in
  let over := filter (fun r => float_gt (num r ArrDelay) (upper_limit df)) df in
  shown_anomaly_count (run_script uploaded fs) = List.length over
  /\ shown_anomaly_table (run_script uploaded fs)
     = firstn 10 (map shown_columns over)
  /\ forall fs',
       shown_anomaly_count (run_script uploaded fs')
       = shown_anomaly_count (run_script uploaded fs)
       /\ shown_anomaly_table (run_script uploaded fs')
          = shown_anomaly_table (run_script uploaded fs).
Proof.
  intros df over. repeat split.
Qed.

(** ** KPIs of an empty selection *)

Lemma mean_nil : mean [] = None.
Proof. reflexivity. Qed.

(** C2. When the selections leave no row, the three means are NaN (not a
    number, not zero), they are shown as [nan], and the count is 0; the
    run is defined for every such input. *)
Theorem kpis_of_empty_selection uploaded fs :
  filtered (load_and_clean uploaded) fs = [] ->
  let r := run_script uploaded fs in
  run_total_flights r = 0
  /\ run_avg_delay r = None
  /\ run_pct_ontime r = None
  /\ run_avg_distance r = None
  /\ metric_avg_delay r = "nan"
  /\ metric_pct_ontime r = "nan%"
  /\ metric_avg_distance r = "nan".
Proof.
  intros H r. unfold r, run_script; simpl.
  rewrite H. repeat split.
Qed.

(** ** Cleaner *)

(** C9. In a cleaned row the six delay columns hold the parsed number, or 0
    when the cell did not parse; every other numeric column holds the
    parsed number or NaN, the date the parsed date or NaT, and the text
    columns what the reader gave.  Rows correspond one to one. *)
Theorem clean_fills_six_columns uploaded :
  Forall2
    (fun raw r =>
       (forall c,
          num r c
          = if existsb (numeric_col_eqb c) six_delay_cols
            then Some (match to_numeric (raw_num raw c) with
                       | Some v => v
                       | None => 0%Q
                       end)
            else to_numeric (raw_num raw c))
       /\ Date r = to_datetime (read_cell (raw_Date raw))
       /\ (forall t, text r t = read_cell (raw_text raw t)))
    uploaded (load_and_clean uploaded).
Proof.
  unfold load_and_clean.
  induction uploaded as [|raw rest IH]; simpl; constructor; [|exact IH].
  repeat split.
  intros c. unfold clean_row; simpl. unfold fillna.
  destruct c; simpl; destruct (to_numeric _); reflexivity.
Qed.

(** ** Per-airline aggregate *)

Lemma ssorted_app (A : Type) (R : A -> A -> Prop) (l1 l2 : list A) :
  StronglySorted R l1 -> StronglySorted R l2 ->
  (forall a b, In a l1 -> In b l2 -> R a b) ->
  StronglySorted R (l1 ++ l2)%list.
Proof.
  intros H1 H2 H12. induction H1 as [|a l1 Hs IH Ha]; simpl; [exact H2|].
  constructor.
  - apply IH. intros x y Hx Hy. apply H12; [now right|exact Hy].
  - rewrite Forall_app. split; [exact Ha|].
    rewrite Forall_forall. intros y Hy. apply H12; [now left|exact Hy].
Qed.

Lemma ssorted_rev (A : Type) (R : A -> A -> Prop) (l : list A) :
  StronglySorted R l -> StronglySorted (fun a b => R b a) (rev l).
Proof.
  induction 1 as [|a l Hs IH Ha]; simpl; [constructor|].
  apply ssorted_app; [exact IH|repeat constructor|].
  intros x y Hx [<-|[]]. rewrite Forall_forall in Ha.
  apply Ha. now apply in_rev.
Qed.

Lemma ssorted_map (A B : Type) (f : A -> B) (R : A -> A -> Prop)
  (S : B -> B -> Prop) (l : list A) :
  (forall a b, R a b -> S (f a) (f b)) ->
  StronglySorted R l -> StronglySorted S (map f l).
Proof.
  intros HRS. induction 1 as [|a l Hs IH Ha]; simpl; constructor; [exact IH|].
  rewrite Forall_map. revert Ha. apply Forall_impl. intros b. apply HRS.
Qed.

(** Insertion sort meets the contract whenever [before] agrees with the
    order of the values in both of its answers. *)
Section Insertion.

Variable before : string * Q -> string * Q -> bool.
Hypothesis before_true : forall x y, before x y = true -> (snd x <= snd y)%Q.
Hypothesis before_false : forall x y, before x y = false -> (snd y <= snd x)%Q.

Lemma insert_row_perm x l : Permutation (x :: l) (insert_row before x l).
Proof.
  induction l as [|y l IH]; simpl; [reflexivity|].
  destruct (before x y); [reflexivity|].
  rewrite perm_swap. now apply perm_skip.
Qed.

Lemma insert_row_sorted x l :
  StronglySorted (fun a b => snd a <= snd b)%Q l ->
  StronglySorted (fun a b => snd a <= snd b)%Q (insert_row before x l).
Proof.
  induction 1 as [|y l Hs IH Hy]; simpl; [repeat constructor|].
  destruct (before x y) eqn:E.
  - constructor; [now constructor|].
    apply before_true in E. constructor; [exact E|].
    revert Hy. apply Forall_impl. intros z Hz. now apply Qle_trans with (snd y).
  - constructor; [exact IH|].
    apply before_false in E.
    apply (Permutation_Forall (insert_row_perm x l)).
    now constructor.
Qed.

Lemma insertion_argsort_contract : argsort_contract (insertion_argsort before).
Proof.
  intros l. unfold insertion_argsort.
  induction l as [|x l [IHp IHs]]; simpl.
  - split; constructor.
  - split.
    + rewrite <- insert_row_perm. now apply perm_skip.
    + now apply insert_row_sorted.
Qed.

End Insertion.

Lemma stable_argsort_contract : argsort_contract stable_argsort.
Proof.
  apply insertion_argsort_contract.
  - intros x y H. now apply Qle_bool_iff.
  - intros x y H. apply Qlt_le_weak, Qnot_le_lt.
    intros Hle. apply Qle_bool_iff in Hle. congruence.
Qed.

(** The table splits into its rows with a mean and its NaN rows. *)
Lemma non_nan_nan_split (t : list (string * option Q)) :
  Permutation t
    (map (fun r => (fst r, Some (snd r))) (non_nan_rows t) ++ nan_rows t)%list.
Proof.
  induction t as [|[k [m|]] t IH]; simpl.
  - reflexivity.
  - now apply perm_skip.
  - now apply Permutation_cons_app.
Qed.

Lemma nan_rows_spec t r : In r (nan_rows t) -> snd r = None.
Proof.
  unfold nan_rows. rewrite filter_In. intros [_ H].
  now destruct (snd r).
Qed.

Lemma sort_values_desc_perm sorter t :
  argsort_contract sorter -> Permutation t (sort_values_desc sorter t).
Proof.
  intros Hc. unfold sort_values_desc.
  rewrite (non_nan_nan_split t) at 1.
  apply Permutation_app_tail, Permutation_map.
  rewrite <- Permutation_rev.
  rewrite <- (proj1 (Hc _)).
  apply Permutation_rev.
Qed.

Lemma sort_values_desc_descending sorter t :
  argsort_contract sorter -> descending (sort_values_desc sorter t).
Proof.
  intros Hc. unfold descending, sort_values_desc.
  apply ssorted_app.
  - apply ssorted_map with (R := fun a b : string * Q => (snd b <= snd a)%Q).
    + intros a b H. exact H.
    + apply ssorted_rev with (R := fun a b : string * Q => (snd a <= snd b)%Q).
      apply Hc.
  - unfold nan_rows. induction t as [|r t IH]; simpl; [constructor|].
    destruct (snd r) eqn:E; [exact IH|].
    constructor; [exact IH|].
    rewrite Forall_forall. intros b Hb.
    apply nan_rows_spec in Hb. unfold desc_before. now rewrite E, Hb.
  - intros a b _ Hb. apply nan_rows_spec in Hb.
    unfold desc_before. rewrite Hb. now destruct (snd a).
Qed.

(** The group keys are strictly ascending, hence distinct. *)

Lemma key_lt_compare a b : key_lt a b <-> String.compare a b = Lt.
Proof.
  unfold key_lt, String.ltb. destruct (String.compare a b); split; congruence.
Qed.

Lemma key_lt_trans a b c : key_lt a b -> key_lt b c -> key_lt a c.
Proof.
  rewrite !key_lt_compare.
  change String.compare with OrderedTypeEx.String_as_OT.cmp.
  rewrite !OrderedTypeEx.String_as_OT.cmp_lt.
  apply OrderedTypeEx.String_as_OT.lt_trans.
Qed.

Lemma insert_key_In k ks x : In x (insert_key k ks) -> x = k \/ In x ks.
Proof.
  induction ks as [|k' ks IH]; simpl.
  - intros [<-|[]]. now left.
  - destruct (String.compare k k'); simpl.
    + intros H. now right.
    + intros [<-|H]; [now left|now right].
    + intros [<-|H]; [right; now left|].
      destruct (IH H) as [->|Hin]; [now left|right; now right].
Qed.

Lemma insert_key_sorted k ks :
  StronglySorted key_lt ks -> StronglySorted key_lt (insert_key k ks).
Proof.
  induction 1 as [|k' ks Hs IH Hk]; simpl; [repeat constructor|].
  destruct (String.compare k k') eqn:E.
  - now constructor.
  - apply key_lt_compare in E.
    constructor; [now constructor|].
    constructor; [exact E|].
    revert Hk. apply Forall_impl. intros z. now apply key_lt_trans.
  - constructor; [exact IH|].
    rewrite Forall_forall. intros z Hz.
    apply insert_key_In in Hz. destruct Hz as [->|Hz].
    + apply key_lt_compare. rewrite String.compare_antisym, E. reflexivity.
    + rewrite Forall_forall in Hk. now apply Hk.
Qed.

Lemma group_keys_sorted c df : StronglySorted key_lt (group_keys c df).
Proof.
  unfold group_keys. induction df as [|r df IH]; simpl; [constructor|].
  destruct (text r c); [now apply insert_key_sorted|exact IH].
Qed.

Lemma group_keys_In c df k :
  In k (group_keys c df) -> exists r, In r df /\ text r c = Some k.
Proof.
  unfold group_keys. induction df as [|r df IH]; simpl; [intros []|].
  destruct (text r c) as [k'|] eqn:E.
  - intros H. apply insert_key_In in H. destruct H as [->|H].
    + exists r. split; [now left|exact E].
    + destruct (IH H) as (r' & Hr' & Hk). exists r'. split; [now right|exact Hk].
  - intros H. destruct (IH H) as (r' & Hr' & Hk).
    exists r'. split; [now right|exact Hk].
Qed.

Lemma groupby_mean_keys c v df :
  map fst (groupby_mean c v df) = group_keys c df.
Proof.
  unfold groupby_mean. rewrite map_map. simpl. apply map_id.
Qed.

Lemma filtered_In df fs r : In r (filtered df fs) -> In r df.
Proof.
  rewrite filtered_as_filter, filter_In. tauto.
Qed.

(** Under any sort that meets the library's contract, the per-airline
    table of a run is the group-by table reordered: its rows are the rows
    of the group-by table (one per airline of the filtered frame, the
    airlines being distinct), and they stand by descending mean, rows
    without a mean last. *)
Theorem avg_delay_airline_descending uploaded fs :
  argsort_contract argsort ->
  descending (run_avg_delay_airline (run_script uploaded fs))
  /\ Permutation
       (groupby_mean Airline ArrDelay (filtered (load_and_clean uploaded) fs))
       (run_avg_delay_airline (run_script uploaded fs))
  /\ StronglySorted key_lt
       (map fst (groupby_mean Airline ArrDelay
                   (filtered (load_and_clean uploaded) fs))).
Proof.
  intros Hc. cbn [run_script run_avg_delay_airline]. unfold avg_delay_airline.
  repeat split.
  - now apply sort_values_desc_descending.
  - now apply sort_values_desc_perm.
  - rewrite groupby_mean_keys. apply group_keys_sorted.
Qed.

(** ** Export and reload *)

Lemma digit_char_not_dash n : Ascii.eqb (digit_char n) "-" = false.
Proof.
  unfold digit_char.
  assert (H : n mod 10 < 10) by (apply Nat.mod_upper_bound; discriminate).
  revert H. generalize (n mod 10) as m. intros m H.
  do 10 (destruct m as [|m]; [reflexivity|]).
  lia.
Qed.

Lemma split_dash_digit n s :
  split_dash (String (digit_char n) s)
  = match split_dash s with
    | [] => [String (digit_char n) EmptyString]
    | f :: fs => String (digit_char n) f :: fs
    end.
Proof.
  cbn [split_dash]. now rewrite digit_char_not_dash.
Qed.

Lemma split_dash_dash s : split_dash (String "-" s) = EmptyString :: split_dash s.
Proof. reflexivity. Qed.






(** * Further properties *)

(** ** Filter Engine: what is kept *)

Lemma isin_spec v l :
  isin v l = true <-> exists a, v = Some a /\ In a l.
Proof.
  unfold isin. destruct v as [s|].
  - rewrite existsb_exists. split.
    + intros (a & Ha & He). apply String.eqb_eq in He. subst. now exists a.
    + intros (a & [= ->] & Ha). exists a. split; [exact Ha|apply String.eqb_refl].
  - split; [discriminate|]. intros (a & Ha & _). discriminate.
Qed.

Lemma selection_spec v l :
  match l with [] => true | _ :: _ => isin v l end = true
  <-> (l <> [] -> exists a, v = Some a /\ In a l).
Proof.
  destruct l as [|x l].
  - split; [intros _ H; now elim H|reflexivity].
  - rewrite isin_spec. split; [intros H _; exact H|].
    intros H. apply H. discriminate.
Qed.

Lemma in_date_range_spec d0 d1 r :
  in_date_range d0 d1 r = true
  <-> exists t, Date r = Some t /\ ts_leb d0 t = true /\ ts_leb t d1 = true.
Proof.
  unfold in_date_range, ge_ts, le_ts. destruct (Date r) as [t|].
  - rewrite andb_true_iff. split.
    + intros [H0 H1]. now exists t.
    + intros (t' & [= <-] & H0 & H1). now split.
  - split; [discriminate|]. intros (t & Ht & _). discriminate.
Qed.

Lemma date_selection_spec dr r :
  match dr with [d0; d1] => in_date_range d0 d1 r | _ => true end = true
  <-> (forall d0 d1, dr = [d0; d1] ->
       exists t, Date r = Some t /\ ts_leb d0 t = true /\ ts_leb t d1 = true).
Proof.
  destruct dr as [|d0 [|d1 [|d2 dr]]]; try (split; [intros _ ? ? [=]|reflexivity]).
  rewrite in_date_range_spec. split.
  - intros H ? ? [= <- <-]. exact H.
  - intros H. now apply H.
Qed.

(** A row is kept exactly when it is a row of the frame that lies in the
    date range (if one is active) and whose airline, origin and destination
    are each among the selected ones (for each non-empty selection). *)
Theorem filtered_In_iff df fs r :
  In r (filtered df fs) <->
  In r df
  /\ (forall d0 d1, date_range fs = [d0; d1] ->
      exists t, Date r = Some t /\ ts_leb d0 t = true /\ ts_leb t d1 = true)
  /\ (selected_carriers fs <> [] ->
      exists a, text r Airline = Some a /\ In a (selected_carriers fs))
  /\ (selected_origin fs <> [] ->
      exists a, text r Origin = Some a /\ In a (selected_origin fs))
  /\ (selected_dest fs <> [] ->
      exists a, text r Dest = Some a /\ In a (selected_dest fs)).
Proof.
  rewrite filtered_as_filter, filter_In. unfold passes.
  rewrite !andb_true_iff, date_selection_spec, !selection_spec.
  tauto.
Qed.

Lemma filter_subseq (A : Type) (p : A -> bool) (l : list A) :
  subseq (filter p l) l.
Proof.
  induction l as [|x l IH]; simpl; [constructor|].
  destruct (p x); now constructor.
Qed.

Lemma subseq_length (A : Type) (l1 l2 : list A) :
  subseq l1 l2 -> List.length l1 <= List.length l2.
Proof.
  induction 1; simpl; lia.
Qed.

(** The filtered frame is the frame with rows left out: the rows kept stay
    in source order, and the flight count never exceeds the row count. *)
Theorem filtered_subseq df fs :
  subseq (filtered df fs) df
  /\ total_flights (filtered df fs) <= List.length df.
Proof.
  assert (H : subseq (filtered df fs) df).
  { rewrite filtered_as_filter. apply filter_subseq. }
  split; [exact H|]. now apply subseq_length.
Qed.

(** Two sets of selections may be applied in either order. *)
Theorem filtered_commute df fs fs' :
  filtered (filtered df fs) fs' = filtered (filtered df fs') fs.
Proof.
  rewrite !filtered_as_filter, !filter_filter.
  apply filter_ext. intros r. apply andb_comm.
Qed.

(** ** The default date range *)

Lemma ts_leb_le a b :
  ts_leb a b = true <->
  year a < year b
  \/ (year a = year b
      /\ (month a < month b \/ (month a = month b /\ day a <= day b))).
Proof.
  unfold ts_leb.
  rewrite !orb_true_iff, !andb_true_iff, !orb_true_iff, !andb_true_iff,
    !Nat.ltb_lt, !Nat.eqb_eq, Nat.leb_le.
  tauto.
Qed.

Lemma ts_leb_refl a : ts_leb a a = true.
Proof. apply ts_leb_le. lia. Qed.

Lemma ts_leb_trans a b c :
  ts_leb a b = true -> ts_leb b c = true -> ts_leb a c = true.
Proof. rewrite !ts_leb_le. lia. Qed.

Lemma ts_leb_total a b : ts_leb a b = false -> ts_leb b a = true.
Proof.
  intros H. destruct (ts_leb b a) eqn:E; [reflexivity|].
  assert (Ha : ~ ts_leb a b = true) by congruence.
  assert (Hb : ~ ts_leb b a = true) by congruence.
  rewrite ts_leb_le in Ha, Hb. lia.
Qed.

Lemma fold_ts_min_lower ts t :
  ts_leb (fold_left ts_min ts t) t = true
  /\ forall x, In x ts -> ts_leb (fold_left ts_min ts t) x = true.
Proof.
  revert t. induction ts as [|y ts IH]; intros t; simpl.
  - split; [apply ts_leb_refl|intros x []].
  - destruct (IH (ts_min t y)) as [H0 H1].
    assert (Ht : ts_leb (ts_min t y) t = true /\ ts_leb (ts_min t y) y = true).
    { unfold ts_min. destruct (ts_leb t y) eqn:E.
      - split; [apply ts_leb_refl|exact E].
      - split; [now apply ts_leb_total|apply ts_leb_refl]. }
    split.
    + apply ts_leb_trans with (ts_min t y); tauto.
    + intros x [<-|Hx]; [|now apply H1].
      apply ts_leb_trans with (ts_min t y); tauto.
Qed.

Lemma fold_ts_max_upper ts t :
  ts_leb t (fold_left ts_max ts t) = true
  /\ forall x, In x ts -> ts_leb x (fold_left ts_max ts t) = true.
Proof.
  revert t. induction ts as [|y ts IH]; intros t; simpl.
  - split; [apply ts_leb_refl|intros x []].
  - destruct (IH (ts_max t y)) as [H0 H1].
    assert (Ht : ts_leb t (ts_max t y) = true /\ ts_leb y (ts_max t y) = true).
    { unfold ts_max. destruct (ts_leb t y) eqn:E.
      - split; [exact E|apply ts_leb_refl].
      - split; [apply ts_leb_refl|now apply ts_leb_total]. }
    split.
    + apply ts_leb_trans with (ts_max t y); tauto.
    + intros x [<-|Hx]; [|now apply H1].
      apply ts_leb_trans with (ts_max t y); tauto.
Qed.

Lemma dates_In df r t : In r df -> Date r = Some t -> In t (dates df).
Proof.
  intros Hr Ht. unfold dates. apply in_flat_map.
  exists r. split; [exact Hr|]. rewrite Ht. now left.
Qed.

(** The earliest and the latest date bound every parsed date of the frame. *)
Lemma min_max_date_bound df a b r t :
  min_date df = Some a -> max_date df = Some b ->
  In r df -> Date r = Some t ->
  ts_leb a t = true /\ ts_leb t b = true.
Proof.
  unfold min_date, max_date. intros Ha Hb Hr Ht.
  assert (Hin := dates_In _ _ Hr Ht).
  destruct (dates df) as [|t0 ts]; [discriminate|].
  injection Ha as <-. injection Hb as <-.
  destruct (fold_ts_min_lower ts t0) as [H0 H1].
  destruct (fold_ts_max_upper ts t0) as [H2 H3].
  destruct Hin as [<-|Hin]; split; auto.
Qed.

(** With the range the date widget starts from (earliest to latest date of
    the frame) and nothing else selected, the rows kept are exactly the
    rows whose date parsed: rows with an absent date are dropped even
    though the user selected nothing. *)
Theorem default_date_range_keeps_dated_rows df fs a b :
  min_date df = Some a -> max_date df = Some b ->
  date_range fs = [a; b] ->
  selected_carriers fs = [] -> selected_origin fs = [] ->
  selected_dest fs = [] ->
  filtered df fs = filter has_date df.
Proof.
  intros Ha Hb Hdr Hc Ho Hd.
  rewrite filtered_as_filter. apply filter_ext_in.
  intros r Hr. unfold passes. rewrite Hdr, Hc, Ho, Hd, !andb_true_r.
  unfold has_date, in_date_range, ge_ts, le_ts.
  destruct (Date r) as [t|] eqn:Ht; [|reflexivity].
  destruct (min_max_date_bound _ _ Ha Hb Hr Ht) as [H0 H1].
  now rewrite H0, H1.
Qed.

(** ** Dates *)

Lemma is_digit_val c : is_digit c = true -> digit_val c <= 9.
Proof.
  unfold is_digit, digit_val.
  rewrite andb_true_iff, !Nat.leb_le. lia.
Qed.

Lemma nonzero_digit_spec c n : nonzero_digit c = Some n -> 1 <= n <= 9.
Proof.
  unfold nonzero_digit.
  destruct (is_digit c && (1 <=? digit_val c)%nat) eqn:E; [|discriminate].
  intros [= <-]. apply andb_true_iff in E. destruct E as [E E1].
  apply Nat.leb_le in E1. apply is_digit_val in E. lia.
Qed.

Lemma two_digits_spec c1 c2 hi n : two_digits c1 c2 hi = Some n -> 1 <= n <= hi.
Proof.
  unfold two_digits.
  destruct (is_digit c1 && is_digit c2); [|discriminate].
  destruct ((1 <=? _) && (_ <=? hi))%nat eqn:E; [|discriminate].
  intros [= <-]. apply andb_true_iff in E.
  rewrite !Nat.leb_le in E. exact E.
Qed.

Lemma parse_d_spec s n : parse_d s = Some n -> 1 <= n <= 31.
Proof.
  destruct s as [|c1 [|c2 [|c3 s]]]; simpl; try discriminate.
  - intros H. apply nonzero_digit_spec in H. lia.
  - destruct (Ascii.eqb c1 " ").
    + intros H. apply nonzero_digit_spec in H. lia.
    + apply two_digits_spec.
Qed.

Lemma parse_m_spec s n : parse_m s = Some n -> 1 <= n <= 12.
Proof.
  destruct s as [|c1 [|c2 [|c3 s]]]; simpl; try discriminate.
  - intros H. apply nonzero_digit_spec in H. lia.
  - apply two_digits_spec.
Qed.

Lemma parse_Y_spec s n : parse_Y s = Some n -> n < 100 * 100.
Proof.
  destruct s as [|c1 [|c2 [|c3 [|c4 [|c5 s]]]]]; simpl; try discriminate.
  destruct (is_digit c1) eqn:E1; simpl; [|discriminate].
  destruct (is_digit c2) eqn:E2; simpl; [|discriminate].
  destruct (is_digit c3) eqn:E3; simpl; [|discriminate].
  destruct (is_digit c4) eqn:E4; simpl; [|discriminate].
  intros [= <-].
  apply is_digit_val in E1, E2, E3, E4. lia.
Qed.

Lemma strptime_calendar s t : strptime s = Some t -> valid_date t.
Proof.
  unfold strptime.
  destruct (split_dash s) as [|fd [|fm [|fy [|x l]]]]; try discriminate.
  destruct (parse_d fd) as [d|] eqn:Ed; [|discriminate].
  destruct (parse_m fm) as [m|] eqn:Em; [|discriminate].
  destruct (parse_Y fy) as [y|] eqn:Ey; [|discriminate].
  destruct ((1 <=? y) && (d <=? days_in_month y m))%nat eqn:E; [|discriminate].
  intros [= <-]. apply andb_true_iff in E. rewrite !Nat.leb_le in E.
  apply parse_d_spec in Ed. apply parse_m_spec in Em. apply parse_Y_spec in Ey.
  unfold valid_date; simpl. lia.
Qed.

(** Whatever the parser accepts is a day of the calendar: a year of four
    digits from 1 on, a month from 1 to 12 and a day that this month has in
    this year. *)
Theorem strptime_valid s t : strptime s = Some t -> valid_date t.
Proof.
  intros H. exact (strptime_calendar _ H).
Qed.

Lemma digit_char_val n : digit_val (digit_char n) = n mod 10.
Proof.
  unfold digit_val, digit_char.
  assert (H : n mod 10 < 10) by (apply Nat.mod_upper_bound; discriminate).
  rewrite nat_ascii_embedding by lia. lia.
Qed.

Lemma digit_char_is_digit n : is_digit (digit_char n) = true.
Proof.
  unfold is_digit, digit_char.
  assert (H : n mod 10 < 10) by (apply Nat.mod_upper_bound; discriminate).
  rewrite nat_ascii_embedding by lia.
  apply andb_true_iff. rewrite !Nat.leb_le. lia.
Qed.

Lemma digit_char_not_space n : Ascii.eqb (digit_char n) " " = false.
Proof.
  unfold digit_char.
  assert (H : n mod 10 < 10) by (apply Nat.mod_upper_bound; discriminate).
  revert H. generalize (n mod 10) as m. intros m H.
  do 10 (destruct m as [|m]; [reflexivity|]).
  lia.
Qed.

Lemma two_digits_char n hi :
  1 <= n <= hi -> n < 100 ->
  two_digits (digit_char (n / 10)) (digit_char n) hi = Some n.
Proof.
  intros Hn Hlt. unfold two_digits.
  rewrite !digit_char_is_digit, !digit_char_val. cbn [andb].
  assert (E : 10 * ((n / 10) mod 10) + n mod 10 = n).
  { rewrite (Nat.mod_small (n / 10) 10).
    - symmetry. apply Nat.div_mod_eq.
    - apply Nat.Div0.div_lt_upper_bound. lia. }
  cbv zeta. rewrite E.
  replace (1 <=? n)%nat with true by (symmetry; apply Nat.leb_le; lia).
  replace (n <=? hi)%nat with true by (symmetry; apply Nat.leb_le; lia).
  reflexivity.
Qed.

Lemma days_in_month_le y m : days_in_month y m <= 31.
Proof.
  unfold days_in_month.
  do 12 (destruct m as [|m]; [try lia; destruct (is_leap y); lia|]).
  lia.
Qed.

Lemma four_digits_value y :
  y < 100 * 100 ->
  1000 * ((y / 1000) mod 10) + 100 * ((y / 100) mod 10)
  + 10 * ((y / 10) mod 10) + y mod 10 = y.
Proof.
  intros Hy.
  replace (y / 1000) with (y / 10 / 10 / 10)
    by (rewrite !Nat.Div0.div_div; reflexivity).
  replace (y / 100) with (y / 10 / 10)
    by (rewrite !Nat.Div0.div_div; reflexivity).
  assert (H1 := Nat.div_mod_eq y 10).
  assert (H2 := Nat.div_mod_eq (y / 10) 10).
  assert (H3 := Nat.div_mod_eq (y / 10 / 10) 10).
  assert (B1 : y mod 10 < 10) by (apply Nat.mod_upper_bound; discriminate).
  assert (B2 : (y / 10) mod 10 < 10) by (apply Nat.mod_upper_bound; discriminate).
  assert (B3 : (y / 10 / 10) mod 10 < 10) by (apply Nat.mod_upper_bound; discriminate).
  revert H1 H2 H3 B1 B2 B3.
  generalize (y mod 10) ((y / 10) mod 10) ((y / 10 / 10) mod 10).
  generalize (y / 10 / 10 / 10) as c.
  generalize (y / 10 / 10) as b. generalize (y / 10) as a.
  intros a b c r1 r2 r3 H1 H2 H3 B1 B2 B3.
  rewrite (Nat.mod_small c 10) by lia.
  lia.
Qed.

(** Every day of the calendar in the years 1678 to 2261, the whole years
    that a nanosecond timestamp can hold, written day first with leading
    zeros, is parsed to itself. *)
Theorem strptime_dmy_format t :
  valid_date t -> 1678 <= year t <= 2261 ->
  strptime (dmy_format t) = Some t.
Proof.
  destruct t as [y m d]. unfold valid_date; simpl. intros (Hy & Hm & Hd) _.
  assert (Hd31 := days_in_month_le y m).
  unfold strptime, dmy_format; simpl year; simpl month; simpl day.
  rewrite !split_dash_digit, split_dash_dash.
  rewrite !split_dash_digit, split_dash_dash.
  rewrite !split_dash_digit.
  cbn [split_dash parse_d parse_m parse_Y].
  rewrite digit_char_not_space.
  rewrite (two_digits_char (n := d) (hi := 31)) by lia.
  rewrite (two_digits_char (n := m) (hi := 12)) by lia.
  rewrite !digit_char_is_digit, !digit_char_val. cbn [andb].
  rewrite (four_digits_value (y := y)) by lia.
  replace (1 <=? y)%nat with true by (symmetry; apply Nat.leb_le; lia).
  replace (d <=? days_in_month y m)%nat with true by (symmetry; apply Nat.leb_le; lia).
  reflexivity.
Qed.

(** ** Enricher on cleaned rows *)

Lemma clean_row_filled raw c :
  existsb (numeric_col_eqb c) six_delay_cols = true ->
  num (clean_row raw) c = Some (or_zero (to_numeric (raw_num raw c))).
Proof.
  intros H. unfold clean_row; simpl. unfold fillna, or_zero.
  destruct (to_numeric (raw_num raw c)); [reflexivity|].
  destruct c; try discriminate H; reflexivity.
Qed.

(** A flight whose arrival delay did not parse is given the delay 0 by the
    Cleaner and is therefore flagged as on time. *)
Theorem missing_delay_is_on_time raw :
  to_numeric (raw_num raw ArrDelay) = None ->
  num (clean_row raw) ArrDelay = Some 0%Q /\ OnTime (clean_row raw) = 1%Z.
Proof.
  intros H.
  assert (E : num (clean_row raw) ArrDelay = Some 0%Q).
  { rewrite clean_row_filled by reflexivity. now rewrite H. }
  split; [exact E|]. unfold OnTime. now rewrite E.
Qed.

(** The month of a cleaned row is absent exactly when its date did not
    parse, and is a number from 1 to 12 otherwise. *)
Theorem Month_clean raw :
  match Month (clean_row raw) with
  | Some m => 1 <= m <= 12 /\ has_date (clean_row raw) = true
  | None => Date (clean_row raw) = None
  end.
Proof.
  unfold Month, has_date.
  destruct (Date (clean_row raw)) as [t|] eqn:E; simpl; [|reflexivity].
  split; [|reflexivity].
  unfold clean_row in E; simpl in E. unfold to_datetime in E.
  destruct (read_cell (raw_Date raw)); [|discriminate].
  apply strptime_calendar in E. unfold valid_date in E. tauto.
Qed.

(** ** Quartiles *)






Lemma sorted_nth_le l d i j :
  StronglySorted Qle l -> i <= j -> j < List.length l ->
  (nth i l d <= nth j l d)%Q.
Proof.
  intros Hs. revert i j.
  induction Hs as [|a l Hs IH Ha]; intros i j Hij Hj; simpl in Hj; [lia|].
  destruct j as [|j].
  - replace i with 0 by lia. apply Qle_refl.
  - destruct i as [|i]; simpl.
    + rewrite Forall_forall in Ha. apply Ha, nth_In. lia.
    + apply IH; lia.
Qed.


Section Interpolation.

Variable vals : list Q.
Variable v0 : Q.
Hypothesis vals_sorted : StronglySorted Qle vals.
Hypothesis vals_nonempty : 1 <= List.length vals.

Let top : Q := inject_Z (Z.of_nat (List.length vals - 1)).

Lemma floor_rank p :
  (0 <= p)%Q -> (p <= top)%Q ->
  (0 <= Qfloor p)%Z /\ Z.to_nat (Qfloor p) <= List.length vals - 1.
Proof.
  intros H0 H1.
  assert (A : (0 <= Qfloor p)%Z).
  { change 0%Z with (Qfloor 0). now apply Qfloor_resp_le. }
  assert (B : (Qfloor p <= Z.of_nat (List.length vals - 1))%Z).
  { rewrite <- (Qfloor_Z (Z.of_nat (List.length vals - 1))).
    now apply Qfloor_resp_le. }
  split; [exact A|lia].
Qed.

Lemma gamma_range p :
  (0 <= p - inject_Z (Qfloor p))%Q /\ (p - inject_Z (Qfloor p) <= 1)%Q.
Proof.
  assert (A := Qfloor_le p). assert (B := Qlt_floor p).
  rewrite inject_Z_plus in B. change (inject_Z 1) with 1%Q in B.
  split; lra.
Qed.

(** The interpolated value lies between the values of the two closest
    ranks. *)
Lemma interpolate_bounds p :
  (0 <= p)%Q -> (p <= top)%Q ->
  let lo := Z.to_nat (Qfloor p) in
  let hi := Nat.min (lo + 1) (List.length vals - 1) in
  (nth lo vals v0 <= interpolate vals v0 p)%Q
  /\ (interpolate vals v0 p <= nth hi vals v0)%Q.
Proof.
  intros H0 H1 lo hi.
  destruct (floor_rank H0 H1) as [_ Hlo]. fold lo in Hlo.
  assert (Hlh : (nth lo vals v0 <= nth hi vals v0)%Q).
  { apply sorted_nth_le; [exact vals_sorted|unfold hi; lia|unfold hi; lia]. }
  destruct (gamma_range p) as [G0 G1].
  unfold interpolate. fold lo. fold hi.
  set (g := (p - inject_Z (Qfloor p))%Q) in *.
  set (L := nth lo vals v0) in *. set (H := nth hi vals v0) in *.
  assert (P1 : (0 <= (H - L) * g)%Q) by (apply Qmult_le_0_compat; lra).
  assert (P2 : (0 <= (H - L) * (1 - g))%Q) by (apply Qmult_le_0_compat; lra).
  split; lra.
Qed.

End Interpolation.

Lemma inject_nat_nonneg n : (0 <= inject_Z (Z.of_nat n))%Q.
Proof.
  change 0%Q with (inject_Z 0). rewrite <- Zle_Qle. lia.
Qed.


(** ** Quartiles of a frame *)






(** ** Anomalies *)

(** The anomaly table shows ten lines, or all anomalous rows when there are
    fewer; the count shown is the full number and never exceeds the number
    of uploaded rows. *)
Theorem anomaly_table_length uploaded fs :
  List.length (shown_anomaly_table (run_script uploaded fs))
  = Nat.min 10 (shown_anomaly_count (run_script uploaded fs))
  /\ shown_anomaly_count (run_script uploaded fs) <= List.length uploaded.
Proof.
  cbn [run_script shown_anomaly_table shown_anomaly_count]. unfold head. split.
  - now rewrite length_firstn, length_map.
  - unfold load_and_clean.
    rewrite <- (length_map clean_row uploaded).
    apply subseq_length, filter_subseq.
Qed.

(** ** KPIs *)

Lemma dropna_nil s : dropna s = [] <-> forall v, In v s -> v = None.
Proof.
  unfold dropna. induction s as [|[q|] s IH]; cbn [flat_map app].
  - split; [intros _ v []|reflexivity].
  - split; [discriminate|]. intros H.
    specialize (H (Some q) (or_introl eq_refl)). discriminate.
  - rewrite IH. split.
    + intros H v [<-|Hv]; [reflexivity|now apply H].
    + intros H v Hv. apply H. now right.
Qed.

Lemma dropna_In s q : In q (dropna s) <-> In (Some q) s.
Proof.
  unfold dropna. rewrite in_flat_map. split.
  - intros ([x|] & Hx & Hq); [|destruct Hq].
    destruct Hq as [<-|[]]. exact Hx.
  - intros H. exists (Some q). split; [exact H|now left].
Qed.

Lemma mean_None s : mean s = None <-> dropna s = [].
Proof.
  unfold mean. destruct (dropna s); split; try reflexivity; discriminate.
Qed.

Lemma inject_nat_succ n :
  (inject_Z (Z.of_nat (S n)) == inject_Z (Z.of_nat n) + 1)%Q.
Proof.
  rewrite Nat2Z.inj_succ, <- Z.add_1_r, inject_Z_plus. reflexivity.
Qed.

Lemma Qsum_bounds (l : list Q) (lo hi : Q) :
  (forall q, In q l -> (lo <= q)%Q /\ (q <= hi)%Q) ->
  (inject_Z (Z.of_nat (List.length l)) * lo <= Qsum l)%Q
  /\ (Qsum l <= inject_Z (Z.of_nat (List.length l)) * hi)%Q.
Proof.
  induction l as [|x l IH]; intros H.
  - cbn [List.length Qsum fold_right].
    change (inject_Z (Z.of_nat 0)) with 0%Q. split; lra.
  - destruct IH as [IH1 IH2].
    { intros q Hq. apply H. now right. }
    destruct (H x (or_introl eq_refl)) as [Hx1 Hx2].
    cbn [List.length Qsum fold_right]. fold (Qsum l).
    rewrite inject_nat_succ. split; lra.
Qed.

(** The mean of a series lies between any two bounds of its numbers. *)
Lemma mean_bounds s lo hi m :
  (forall q, In (Some q) s -> (lo <= q)%Q /\ (q <= hi)%Q) ->
  mean s = Some m -> (lo <= m)%Q /\ (m <= hi)%Q.
Proof.
  intros H Hm.
  destruct (dropna s) as [|x l] eqn:E.
  { apply mean_None in E. congruence. }
  destruct (@Qsum_bounds (x :: l) lo hi) as [B1 B2].
  { intros q Hq. apply H. apply dropna_In. now rewrite E. }
  assert (Hpos : (0 < inject_Z (Z.of_nat (List.length (x :: l))))%Q).
  { change 0%Q with (inject_Z 0). rewrite <- Zlt_Qlt. simpl. lia. }
  assert (Em : mean s = Some (Qsum (x :: l)
                              / inject_Z (Z.of_nat (List.length (x :: l))))%Q).
  { unfold mean. rewrite E. reflexivity. }
  rewrite Em in Hm.
  set (total := Qsum (x :: l)) in *.
  set (n := inject_Z (Z.of_nat (List.length (x :: l)))) in *.
  injection Hm as <-.
  split.
  - apply Qle_shift_div_l; [exact Hpos|]. lra.
  - apply Qle_shift_div_r; [exact Hpos|]. lra.
Qed.

Lemma OnTime_01 r : OnTime r = 0%Z \/ OnTime r = 1%Z.
Proof.
  unfold OnTime. destruct (float_le _ _); [now right|now left].
Qed.

(** The on-time percentage of a non-empty selection is a number from 0 to
    100; it is NaN only for the empty selection. *)
Theorem pct_ontime_range fl :
  match pct_ontime fl with
  | Some p => (0 <= p)%Q /\ (p <= 100)%Q
  | None => fl = []
  end.
Proof.
  unfold pct_ontime.
  destruct (mean (map (fun r => Some (inject_Z (OnTime r))) fl)) as [m|] eqn:E;
    simpl.
  - assert (Hb : forall q,
               In (Some q) (map (fun r => Some (inject_Z (OnTime r))) fl) ->
               (0 <= q)%Q /\ (q <= 1)%Q).
    { intros q Hq. apply in_map_iff in Hq. destruct Hq as (r & [= <-] & _).
      destruct (OnTime_01 r) as [-> | ->]; split; compute; discriminate. }
    destruct (mean_bounds _ Hb E) as [H0 H1].
    split; lra.
  - apply mean_None in E. rewrite dropna_nil in E.
    destruct fl as [|r fl]; [reflexivity|].
    specialize (E _ (or_introl eq_refl)). discriminate.
Qed.

(** ** Groups *)

Lemma insert_key_In_iff k ks x : In x (insert_key k ks) <-> x = k \/ In x ks.
Proof.
  split; [apply insert_key_In|].
  induction ks as [|k' ks IH]; simpl.
  - intros [->|[]]. now left.
  - destruct (String.compare k k') eqn:E.
    + apply String.compare_eq_iff in E. subst k'.
      intros [->|H]; [now left|exact H].
    + intros [->|H]; [now left|now right].
    + intros [->|[->|H]].
      * right. apply IH. now left.
      * now left.
      * right. apply IH. now right.
Qed.

Lemma group_keys_In_iff c df k :
  In k (group_keys c df) <-> exists r, In r df /\ text r c = Some k.
Proof.
  split; [apply group_keys_In|].
  unfold group_keys. induction df as [|r df IH]; simpl.
  - intros (r & [] & _).
  - intros (r' & [<-|Hr'] & Hk).
    + rewrite Hk. apply insert_key_In_iff. now left.
    + assert (Hin : In k (fold_right
                            (fun r ks => match text r c with
                                         | Some k => insert_key k ks
                                         | None => ks
                                         end) [] df)).
      { apply IH. now exists r'. }
      destruct (text r c); [|exact Hin].
      apply insert_key_In_iff. now right.
Qed.

Lemma key_lt_irrefl k : ~ key_lt k k.
Proof.
  rewrite key_lt_compare.
  assert (E : String.compare k k = Eq).
  { change String.compare with OrderedTypeEx.String_as_OT.cmp.
    now apply OrderedTypeEx.String_as_OT.cmp_eq. }
  congruence.
Qed.

Lemma sorted_keys_NoDup ks : StronglySorted key_lt ks -> NoDup ks.
Proof.
  induction 1 as [|k ks Hs IH Hk]; constructor; [|exact IH].
  intros Hin. rewrite Forall_forall in Hk.
  exact (key_lt_irrefl (Hk k Hin)).
Qed.

(** A group-by table has one row for each value of the key column that
    occurs in the frame, and no other; each occurs once.  Rows whose key
    cell is absent are in no group. *)
Theorem groupby_mean_keys_iff c v fl :
  NoDup (map fst (groupby_mean c v fl))
  /\ forall k, In k (map fst (groupby_mean c v fl))
               <-> exists r, In r fl /\ text r c = Some k.
Proof.
  rewrite groupby_mean_keys. split.
  - apply sorted_keys_NoDup, group_keys_sorted.
  - intros k. apply group_keys_In_iff.
Qed.

(** ** Monthly trend *)

Lemma insert_month_In m ms x : In x (insert_month m ms) <-> x = m \/ In x ms.
Proof.
  induction ms as [|m' ms IH]; simpl.
  - split; [intros [<-|[]]; now left|intros [->|[]]; now left].
  - destruct (Nat.compare_spec m m') as [E|E|E]; simpl.
    + subst m'. split; [intros H; now right|].
      intros [->|H]; [now left|exact H].
    + split; [intros [<-|H]; [now left|now right]|].
      intros [->|H]; [now left|now right].
    + rewrite IH. split.
      * intros [<-|[->|H]]; [right; now left|now left|right; now right].
      * intros [->|[<-|H]]; [right; now left|now left|right; now right].
Qed.

Lemma insert_month_sorted m ms :
  StronglySorted lt ms -> StronglySorted lt (insert_month m ms).
Proof.
  induction 1 as [|m' ms Hs IH Hm]; simpl; [repeat constructor|].
  destruct (Nat.compare_spec m m') as [E|E|E].
  - now constructor.
  - constructor; [now constructor|]. constructor; [exact E|].
    revert Hm. apply Forall_impl. intros z Hz. lia.
  - constructor; [exact IH|].
    rewrite Forall_forall. intros z Hz.
    apply insert_month_In in Hz. destruct Hz as [->|Hz]; [exact E|].
    rewrite Forall_forall in Hm. now apply Hm.
Qed.

Lemma month_keys_sorted df : StronglySorted lt (month_keys df).
Proof.
  unfold month_keys. induction df as [|r df IH]; simpl; [constructor|].
  destruct (Month r); [now apply insert_month_sorted|exact IH].
Qed.

Lemma month_keys_In df m :
  In m (month_keys df) <-> exists r, In r df /\ Month r = Some m.
Proof.
  unfold month_keys. induction df as [|r df IH]; simpl.
  - split; [intros []|intros (r & [] & _)].
  - destruct (Month r) as [m'|] eqn:E.
    + rewrite insert_month_In, IH. split.
      * intros [->|(r' & Hr' & Hm)].
        -- exists r. split; [now left|exact E].
        -- exists r'. split; [now right|exact Hm].
      * intros (r' & [<-|Hr'] & Hm).
        -- left. congruence.
        -- right. now exists r'.
    + rewrite IH. split.
      * intros (r' & Hr' & Hm). exists r'. split; [now right|exact Hm].
      * intros (r' & [<-|Hr'] & Hm); [congruence|now exists r'].
Qed.

Lemma sorted_range_length (l : list nat) (a b : nat) :
  StronglySorted lt l -> Forall (fun m => a <= m <= b) l ->
  List.length l <= b + 1 - a.
Proof.
  intros Hs. revert a.
  induction Hs as [|x l Hs IH Hx]; intros a Hr; simpl; [lia|].
  inversion Hr as [|? ? Hxa Hl]; subst.
  assert (H : List.length l <= b + 1 - S x).
  { apply IH. rewrite Forall_forall in *. intros z Hz.
    specialize (Hx z Hz). specialize (Hl z Hz). lia. }
  lia.
Qed.

Lemma month_clean_range raw m : Month (clean_row raw) = Some m -> 1 <= m <= 12.
Proof.
  unfold Month, clean_row; simpl. unfold to_datetime.
  destruct (read_cell (raw_Date raw)) as [s|]; [|discriminate].
  destruct (strptime s) as [t|] eqn:E; [|discriminate].
  intros [= <-]. apply strptime_calendar in E. unfold valid_date in E. tauto.
Qed.

(** In a run the monthly trend has one point for each calendar month in
    which a selected flight with a parsed date falls, whatever the year;
    the points come in calendar order, each month is between 1 and 12, and
    there are at most twelve of them. *)
Theorem trend_months uploaded fs :
  StronglySorted lt (map fst (trend (filtered (load_and_clean uploaded) fs)))
  /\ Forall (fun m => 1 <= m <= 12)
       (map fst (trend (filtered (load_and_clean uploaded) fs)))
  /\ List.length (trend (filtered (load_and_clean uploaded) fs)) <= 12
  /\ forall m,
       In m (map fst (trend (filtered (load_and_clean uploaded) fs)))
       <-> exists r, In r (filtered (load_and_clean uploaded) fs)
                     /\ Month r = Some m.
Proof.
  set (fl := filtered (load_and_clean uploaded) fs).
  assert (Ek : map fst (trend fl) = month_keys fl).
  { unfold trend. rewrite map_map. simpl. apply map_id. }
  assert (Hs : StronglySorted lt (month_keys fl)) by apply month_keys_sorted.
  assert (Hr : Forall (fun m => 1 <= m <= 12) (month_keys fl)).
  { rewrite Forall_forall. intros m Hm.
    apply month_keys_In in Hm. destruct Hm as (r & Hr & Hm).
    apply filtered_In in Hr. unfold load_and_clean in Hr.
    apply in_map_iff in Hr. destruct Hr as (raw & <- & _).
    now apply month_clean_range with raw. }
  rewrite Ek. repeat split; try assumption.
  - rewrite <- (length_map fst), Ek.
    apply (sorted_range_length Hs Hr).
  - apply month_keys_In.
  - apply month_keys_In.
Qed.

(** ** Side bar options *)

Lemma cell_eqb_eq a b : cell_eqb a b = true <-> a = b.
Proof.
  destruct a as [x|], b as [y|]; simpl; try (split; congruence).
  rewrite String.eqb_eq. split; congruence.
Qed.

Lemma unique_In s y : In y (unique s) <-> In y s.
Proof.
  induction s as [|x s IH]; simpl; [reflexivity|].
  rewrite filter_In, IH, negb_true_iff. split.
  - intros [H|[H _]]; [now left|now right].
  - intros [H|H]; [now left|].
    destruct (cell_eqb y x) eqn:E.
    + left. symmetry. now apply cell_eqb_eq.
    + right. now split.
Qed.

Lemma unique_NoDup s : NoDup (unique s).
Proof.
  induction s as [|x s IH]; simpl; constructor.
  - rewrite filter_In, negb_true_iff. intros [_ H].
    assert (E : cell_eqb x x = true) by now apply cell_eqb_eq.
    congruence.
  - now apply NoDup_filter.
Qed.

Lemma all_text_strings l : forallb is_text l = true -> l = map Some (strings l).
Proof.
  unfold strings. induction l as [|[x|] l IH]; simpl; try discriminate.
  - reflexivity.
  - intros H. f_equal. now apply IH.
Qed.

Lemma strings_In l k : In k (strings l) <-> In (Some k) l.
Proof.
  unfold strings. rewrite in_flat_map. split.
  - intros ([x|] & Hx & Hk); [|destruct Hk].
    destruct Hk as [<-|[]]. exact Hx.
  - intros H. exists (Some k). split; [exact H|now left].
Qed.

Lemma leb_neq_lt x y : String.leb x y = true -> x <> y -> key_lt x y.
Proof.
  unfold key_lt, String.leb, String.ltb.
  destruct (String.compare x y) eqn:E; try congruence.
  apply String.compare_eq_iff in E. congruence.
Qed.

Lemma leb_false_lt x y : String.leb x y = false -> key_lt y x.
Proof.
  unfold String.leb. intros H. apply key_lt_compare.
  rewrite String.compare_antisym.
  destruct (String.compare x y); try discriminate. reflexivity.
Qed.

Lemma insert_string_In x l y : In y (insert_string x l) <-> y = x \/ In y l.
Proof.
  induction l as [|z l IH]; simpl.
  - split; [intros [<-|[]]; now left|intros [->|[]]; now left].
  - destruct (String.leb x z); simpl.
    + split; [intros [<-|H]; [now left|now right]|].
      intros [->|H]; [now left|now right].
    + rewrite IH. split.
      * intros [<-|[->|H]]; [right; now left|now left|right; now right].
      * intros [->|[<-|H]]; [right; now left|now left|right; now right].
Qed.

Lemma insert_string_sorted x l :
  StronglySorted key_lt l -> ~ In x l ->
  StronglySorted key_lt (insert_string x l).
Proof.
  induction 1 as [|z l Hs IH Hz]; intros Hx; simpl; [repeat constructor|].
  destruct (String.leb x z) eqn:E.
  - assert (Hxz : key_lt x z).
    { apply leb_neq_lt; [exact E|]. intros ->. apply Hx. now left. }
    constructor; [now constructor|]. constructor; [exact Hxz|].
    revert Hz. apply Forall_impl. intros w. now apply key_lt_trans.
  - constructor.
    + apply IH. intros H. apply Hx. now right.
    + rewrite Forall_forall. intros w Hw.
      apply insert_string_In in Hw. destruct Hw as [->|Hw].
      * now apply leb_false_lt.
      * rewrite Forall_forall in Hz. now apply Hz.
Qed.

Lemma sort_strings_In l y : In y (sort_strings l) <-> In y l.
Proof.
  unfold sort_strings. induction l as [|x l IH]; simpl; [reflexivity|].
  rewrite insert_string_In, IH. split; intros [H|H]; auto.
Qed.

Lemma sort_strings_sorted l : NoDup l -> StronglySorted key_lt (sort_strings l).
Proof.
  induction 1 as [|x l Hx Hl IH]; [constructor|].
  change (sort_strings (x :: l)) with (insert_string x (sort_strings l)).
  apply insert_string_sorted; [exact IH|].
  now rewrite sort_strings_In.
Qed.

(** A strictly ascending list is determined by its elements. *)
Lemma sorted_keys_unique l1 l2 :
  StronglySorted key_lt l1 -> StronglySorted key_lt l2 ->
  (forall k, In k l1 <-> In k l2) -> l1 = l2.
Proof.
  intros H1. revert l2.
  induction H1 as [|a l1 Hs1 IH Ha]; intros l2 H2 Hin.
  - destruct l2 as [|b l2]; [reflexivity|].
    destruct (proj2 (Hin b) (or_introl eq_refl)).
  - destruct H2 as [|b l2 Hs2 Hb].
    { destruct (proj1 (Hin a) (or_introl eq_refl)). }
    rewrite Forall_forall in Ha, Hb.
    assert (Eab : a = b).
    { destruct (proj1 (Hin a) (or_introl eq_refl)) as [E|Hab]; [now symmetry|].
      destruct (proj2 (Hin b) (or_introl eq_refl)) as [E|Hba]; [exact E|].
      exfalso. apply (@key_lt_irrefl a).
      apply key_lt_trans with b; [now apply Ha|now apply Hb]. }
    subst b. f_equal. apply IH; [exact Hs2|].
    intros k. split; intros Hk.
    + destruct (proj1 (Hin k) (or_intror Hk)) as [E|H]; [|exact H].
      subst k. exfalso. exact (key_lt_irrefl (Ha a Hk)).
    + destruct (proj2 (Hin k) (or_intror Hk)) as [E|H]; [|exact H].
      subst k. exfalso. exact (key_lt_irrefl (Hb a Hk)).
Qed.

Lemma sorted_all_text l :
  forallb is_text l = true ->
  sorted l = Some (map Some (sort_strings (strings l))).
Proof.
  intros H. destruct l as [|[x|] [|y l]]; try discriminate; try reflexivity.
  unfold sorted. now rewrite H.
Qed.

(** When every row has the cell, the options offered for a column are its
    group keys: the values that occur, each once, in ascending order. *)
Theorem multiselect_options_complete c df :
  (forall r, In r df -> text r c <> None) ->
  multiselect_options c df = Some (map Some (group_keys c df)).
Proof.
  intros Hall. unfold multiselect_options.
  set (cells := map (fun r => text r c) df).
  assert (Ht : forallb is_text (unique cells) = true).
  { apply forallb_forall. intros v Hv. apply (proj1 (unique_In _ _)) in Hv.
    unfold cells in Hv. apply in_map_iff in Hv. destruct Hv as (r & <- & Hr).
    specialize (Hall r Hr). now destruct (text r c). }
  rewrite (sorted_all_text _ Ht). do 2 f_equal.
  apply sorted_keys_unique.
  - apply sort_strings_sorted.
    assert (Hn := unique_NoDup cells).
    rewrite (all_text_strings _ Ht) in Hn.
    now apply NoDup_map_inv in Hn.
  - apply group_keys_sorted.
  - intros k. rewrite sort_strings_In, strings_In, unique_In, group_keys_In_iff.
    unfold cells. rewrite in_map_iff. split.
    + intros (r & Hk & Hr). now exists r.
    + intros (r & Hr & Hk). now exists r.
Qed.

End Script.

(** * The script on explicit inputs *)

(** C5 on the sample: the row with the unparseable date is not kept by the
    January range. *)
Lemma filtered_excludes_absent_date_sample :
  List.length (date_range january) = 2
  /\ forall r, Date r = None ->
       ~ In r (filtered (load_and_clean int_to_numeric sample_upload) january).
Proof.
  split; [reflexivity|].
  apply (@filtered_excludes_absent_date
           (load_and_clean int_to_numeric sample_upload) january).
  reflexivity.
Defined.

(** C6 on the sample. *)
Lemma filtered_no_predicate_sample :
  filtered (load_and_clean int_to_numeric sample_upload) no_filter
  = load_and_clean int_to_numeric sample_upload.
Proof.
  apply (@filtered_no_predicate
           (load_and_clean int_to_numeric sample_upload) no_filter).
  - simpl. lia.
  - reflexivity.
  - reflexivity.
  - reflexivity.
Defined.

(** C2 on the sample: no flight of DL leaves ORD. *)
Lemma kpis_of_empty_selection_sample :
  let r := run_script int_to_numeric int_repr int_format stable_argsort
             sample_upload DL_from_ORD in
  run_total_flights r = 0
  /\ run_avg_delay r = None
  /\ run_pct_ontime r = None
  /\ run_avg_distance r = None
  /\ metric_avg_delay r = "nan"
  /\ metric_pct_ontime r = "nan%"
  /\ metric_avg_distance r = "nan".
Proof.
  apply (@kpis_of_empty_selection int_to_numeric int_repr int_format
           stable_argsort sample_upload DL_from_ORD).
  vm_compute. reflexivity.
Defined.

(** The per-airline table of the whole sample (three airlines), with the
    order-keeping sort. *)
Lemma avg_delay_airline_descending_sample :
  descending
    (run_avg_delay_airline
       (run_script int_to_numeric int_repr int_format stable_argsort
          sample_upload no_filter))
  /\ Permutation
       (groupby_mean Airline ArrDelay
          (filtered (load_and_clean int_to_numeric sample_upload) no_filter))
       (run_avg_delay_airline
          (run_script int_to_numeric int_repr int_format stable_argsort
             sample_upload no_filter))
  /\ StronglySorted key_lt
       (map fst (groupby_mean Airline ArrDelay
                   (filtered (load_and_clean int_to_numeric sample_upload)
                      no_filter))).
Proof.
  apply (@avg_delay_airline_descending int_to_numeric int_repr int_format
           stable_argsort sample_upload no_filter).
  exact stable_argsort_contract.
Defined.


(** The limit is not the one the filtered rows alone would give: on the
    sample the two AA flights are both kept, yet the limits differ. *)
Lemma upper_limit_of_selection_differs :
  option_map Qred (upper_limit (load_and_clean int_to_numeric sample_upload))
  = Some (45 # 2)
  /\ option_map Qred
       (upper_limit
          (filtered (load_and_clean int_to_numeric sample_upload) only_AA))
     = Some (31 # 2).
Proof. split; vm_compute; reflexivity. Qed.

(** * Further properties on explicit inputs *)

Lemma default_date_range_sample :
  filtered (load_and_clean int_to_numeric sample_upload) whole_range
  = filter has_date (load_and_clean int_to_numeric sample_upload).
Proof.
  apply (@default_date_range_keeps_dated_rows
           (load_and_clean int_to_numeric sample_upload) whole_range
           (mkTimestamp 2019 1 3) (mkTimestamp 2019 2 18));
    reflexivity.
Defined.

Lemma strptime_valid_sample : valid_date (mkTimestamp 2020 2 29).
Proof.
  apply (@strptime_valid "29-02-2020" (mkTimestamp 2020 2 29)).
  reflexivity.
Defined.

Lemma strptime_dmy_format_sample :
  strptime (dmy_format (mkTimestamp 2019 1 3)) = Some (mkTimestamp 2019 1 3).
Proof.
  apply (@strptime_dmy_format (mkTimestamp 2019 1 3)).
  - unfold valid_date; simpl. lia.
  - simpl. lia.
Defined.

Lemma missing_delay_is_on_time_sample :
  num (clean_row int_to_numeric
         (sample_row "04-01-2019" "UA" "ORD" "SFO" "" "1846")) ArrDelay
  = Some 0%Q
  /\ OnTime (clean_row int_to_numeric
               (sample_row "04-01-2019" "UA" "ORD" "SFO" "" "1846")) = 1%Z.
Proof.
  apply (@missing_delay_is_on_time int_to_numeric
           (sample_row "04-01-2019" "UA" "ORD" "SFO" "" "1846")).
  reflexivity.
Defined.

Lemma multiselect_options_complete_sample :
  multiselect_options Airline (load_and_clean int_to_numeric sample_upload)
  = Some (map Some
            (group_keys Airline (load_and_clean int_to_numeric sample_upload))).
Proof.
  apply (@multiselect_options_complete Airline
           (load_and_clean int_to_numeric sample_upload)).
  intros r [<-|[<-|[<-|[<-|[<-|[]]]]]]; discriminate.
Defined.




(** Quartiles that fall between two ranks: for the delays 4, 1, 3, 2 the
    virtual indices are 3/4 and 9/4, so Q1 = 1 + 3/4 and Q3 = 3 + 1/4. *)
Lemma quartiles_of_four_delays :
  option_map Qred (q1 four_delays) = Some (7 # 4)
  /\ option_map Qred (q3 four_delays) = Some (13 # 4)
  /\ option_map Qred (upper_limit four_delays) = Some (11 # 2).
Proof. repeat split. Qed.
